(** * PDF annotation sample: span-to-geometry reconciliation

    A shallow embedding of [docs/samples/python/example_pdf_annotation.ipynb]:
    the notebook extracts the text containers of every PDF page, runs the
    analyzer over each container's text, slices the container's characters by
    every result's [start:end], inflates each slice into one bounding box and
    finally writes one highlight annotation per box.

    Coordinates are exact integers (a PDF unit grid); Python's [min]/[max]
    are written out by their comparisons.  The layout tree of pdfminer, the
    analyzer of Presidio and the document of pikepdf are data and parameters
    of the model: only the notebook's own logic is embedded. *)

From Stdlib Require Import ZArith QArith Ascii String.
From stdpp Require Import base list strings.

Open Scope Z_scope.

(** ** Python built-ins used by the notebook *)

Module Py.

(** The only exception the notebook's own statements can raise:
    [seq[0]] on an empty list, [pdf.pages[0]] on a document without pages. *)
Inductive exn := IndexError.

(** [min(a, b)]: the first argument unless the second is strictly smaller. *)
Definition min (a b : Z) : Z := if b <? a then b else a.

(** [max(a, b)]: the first argument unless the second is strictly greater. *)
Definition max (a b : Z) : Z := if a <? b then b else a.

(** One bound of [l[start:stop]] for a list of length [n]: a negative
    index counts from the end, then the index is clamped to [0..n]. *)
Definition adjust_index (n i : Z) : Z :=
  if i <? 0 then (if i + n <? 0 then 0 else i + n)
  else (if n <? i then n else i).

(** [l[start:stop]]: never raises; bounds are clamped, and the slice is
    empty when the adjusted stop does not exceed the adjusted start. *)
Definition slice {A} (l : list A) (start stop : Z) : list A :=
  let n := Z.of_nat (length l) in
  let lo := adjust_index n start in
  let hi := adjust_index n stop in
  take (Z.to_nat (hi - lo)) (drop (Z.to_nat lo) l).

(** Code points for which [str.isspace] holds, within Latin-1. *)
Definition is_space_char (c : ascii) : bool :=
  let n := Z.of_nat (nat_of_ascii c) in
  ((9 <=? n) && (n <=? 13)) || ((28 <=? n) && (n <=? 32))
  || (n =? 133) || (n =? 160).

Fixpoint all_space (s : string) : bool :=
  match s with
  | EmptyString => true
  | String c s' => is_space_char c && all_space s'
  end.

(** [s.isspace()]: at least one character, and all of them whitespace. *)
Definition isspace (s : string) : bool :=
  match s with
  | EmptyString => false
  | _ => all_space s
  end.

End Py.

(** ** Data model *)

(** A pdfminer bounding box, the tuple [(x0, y0, x1, y1)]. *)
Record Rect := mkRect { x0 : Z; y0 : Z; x1 : Z; y1 : Z }.

(** A Presidio recognizer result: the span [start, end) and its label. *)
Record RecognizerResult := mkResult {
  entity_type : string;
  start : Z;
  end_ : Z
}.

(** Children of a text line: [LTChar] carries a box, [LTAnno] (inserted
    spaces and line ends) does not and is filtered out by the notebook. *)
Inductive LineItem :=
| LTChar (text : string) (bbox : Rect)
| LTAnno (text : string).

(** Children of a text container. *)
Inductive ContainerItem :=
| LTTextLine (items : list LineItem)
| LTOtherItem.

(** Elements of a page layout; [get_text] is the container's text as
    pdfminer reports it. *)
Inductive LayoutItem :=
| LTTextContainer (get_text : string) (children : list ContainerItem)
| LTOtherLayout.

Definition PageLayout := list LayoutItem.

(** An entry of [analyzed_character_sets]: the sliced characters' boxes and
    the result they were sliced for. *)
Record CharacterSet := mkCharacterSet {
  characters : list Rect;
  cs_result : RecognizerResult
}.

(** An entry of [analyzed_bounding_boxes]. *)
Record BoundingBox := mkBoundingBox {
  boundingBox : Rect;
  bb_result : RecognizerResult
}.

(** The highlight dictionary built for one bounding box. *)
Record Highlight := mkHighlight {
  Subtype : string;
  QuadPoints : list Z;
  HRect : list Z;
  C : list Z;
  CA : Q;
  T : string
}.

(** A page of the opened document: its annotation list, when it has one,
    and everything else ([contents] stands for the rest of the page). *)
Record Page := mkPage {
  contents : string;
  Annots : option (list Highlight)
}.

(** What the first cell writes to the console. *)
Inductive Printed :=
| PrintText (s : string)
| PrintResults (rs : list RecognizerResult).

(** State threaded through the first cell: the global list it appends to,
    the console, and the trace of calls made to the analyzer. *)
Record Cell1 := mkCell1 {
  analyzed_character_sets : list CharacterSet;
  console : list Printed;
  analyzer_calls : list (string * string)
}.

(** ** Cell 2: bounding boxes *)

Definition combine_rect (rectA rectB : Rect) : Rect :=
  let a := rectA in
  let b := rectB in
  let startX := Py.min (x0 a) (x0 b) in
  let startY := Py.min (y0 a) (y0 b) in
  let endX := Py.max (x1 a) (x1 b) in
  let endY := Py.max (y1 a) (y1 b) in
  mkRect startX startY endX endY.

(** The inner loop: [completeBoundingBox = combine_rect(completeBoundingBox,
    character.bbox)] over the characters, in order. *)
Definition combine_all (acc : Rect) (chars : list Rect) : Rect :=
  fold_left combine_rect chars acc.

(** Body of the outer loop for one character set: [characters[0].bbox]
    raises on an empty list; the fold then runs over every character, the
    first one included. *)
Definition completeBoundingBox (chars : list Rect) : Py.exn + Rect :=
  match chars with
  | [] => inl Py.IndexError
  | first :: _ => inr (combine_all first chars)
  end.

(** The outer loop, appending to [analyzed_bounding_boxes] (the
    accumulator).  An exception is not caught: the loop stops there, with
    the entries appended so far left in the global list. *)
Fixpoint bounding_boxes_loop (sets : list CharacterSet) (acc : list BoundingBox)
  : list BoundingBox * option Py.exn :=
  match sets with
  | [] => (acc, None)
  | cs :: rest =>
      match completeBoundingBox (characters cs) with
      | inl e => (acc, Some e)
      | inr box => bounding_boxes_loop rest (acc ++ [mkBoundingBox box (cs_result cs)])
      end
  end.

Definition cell2 (sets : list CharacterSet) : list BoundingBox * option Py.exn :=
  bounding_boxes_loop sets [].

(** ** Cell 1: analysis and slicing *)

(** The two nested [filter] loops collecting the container's [LTChar]s. *)
Definition line_characters (items : list LineItem) : list Rect :=
  flat_map (fun t => match t with LTChar _ b => [b] | LTAnno _ => [] end) items.

Definition container_characters (children : list ContainerItem) : list Rect :=
  flat_map (fun t => match t with
                     | LTTextLine items => line_characters items
                     | LTOtherItem => []
                     end) children.

(** Line 97 for one result: [characters[start:end]], paired with the result. *)
Definition slice_result (chars : list Rect) (result : RecognizerResult) : CharacterSet :=
  mkCharacterSet (Py.slice chars (start result) (end_ result)) result.

Section Analyzer.

(** [analyzer.analyze(text=..., language=...)], the external engine. *)
Variable analyze : string -> string -> list RecognizerResult.

(** Body of the loop over the elements of a page layout. *)
Definition process_container (st : Cell1) (item : LayoutItem) : Cell1 :=
  match item with
  | LTOtherLayout => st
  | LTTextContainer text_to_anonymize children =>
      let analyzer_results := analyze text_to_anonymize "en" in
      let calls := analyzer_calls st ++ [(text_to_anonymize, "en"%string)] in
      let out :=
        if Bool.eqb (Py.isspace text_to_anonymize) false
        then console st ++ [PrintText text_to_anonymize; PrintResults analyzer_results]
        else console st in
      let chars := container_characters children in
      mkCell1 (analyzed_character_sets st ++ map (slice_result chars) analyzer_results)
              out calls
  end.

Definition process_page (st : Cell1) (page_layout : PageLayout) : Cell1 :=
  fold_left process_container page_layout st.

Definition cell1 (pages : list PageLayout) : Cell1 :=
  fold_left process_page pages (mkCell1 [] [] []).

End Analyzer.

(** ** Cell 3: highlight annotations *)

Definition highlight (b : BoundingBox) : Highlight :=
  let bb := boundingBox b in
  mkHighlight "Highlight"
    [x0 bb; y1 bb; x1 bb; y1 bb; x0 bb; y0 bb; x1 bb; y0 bb]
    [x0 bb; y0 bb; x1 bb; y1 bb]
    [1; 0; 0]
    (1 # 2)%Q
    (entity_type (bb_result b)).

Definition make_annotations (boxes : list BoundingBox) : list Highlight :=
  map highlight boxes.

(** [pdf.pages[0].Annots = pdf.make_indirect(annotations)]: the first page's
    annotation list is replaced; a document without pages raises. *)
Definition cell3 (pdf : list Page) (boxes : list BoundingBox) : Py.exn + list Page :=
  match pdf with
  | [] => inl Py.IndexError
  | p :: _ => inr (<[0%nat := mkPage (contents p) (Some (make_annotations boxes))]> pdf)
  end.

(** ** The whole notebook and the per-result view of it *)

(** Run the three cells in order on the layouts extracted from the file
    and the document opened from it; a failing cell stops the run and
    nothing is saved. *)
Definition run_notebook (analyze : string -> string -> list RecognizerResult)
    (layouts : list PageLayout) (pdf : list Page) : Py.exn + list Page :=
  let st := cell1 analyze layouts in
  match cell2 (analyzed_character_sets st) with
  | (_, Some e) => inl e
  | (boxes, None) => cell3 pdf boxes
  end.

(** What the notebook computes for one result over one container's
    characters: the slice of line 97 followed by the loop body of cell 2. *)
Definition reconcile (glyphs : list Rect) (result : RecognizerResult)
  : Py.exn + BoundingBox :=
  let cs := slice_result glyphs result in
  match completeBoundingBox (characters cs) with
  | inl e => inl e
  | inr box => inr (mkBoundingBox box (cs_result cs))
  end.

(** ** Specification vocabulary and sample inputs *)

(** Containment of rectangles: [outer] encloses [inner]. *)
Definition contains (outer inner : Rect) : Prop :=
  x0 outer <= x0 inner /\ y0 outer <= y0 inner /\
  x1 inner <= x1 outer /\ y1 inner <= y1 outer.

(** A way of reducing a collection of rectangles with the union rule: the
    leaves are the rectangles, in some order, and every inner node is one
    merge, so the shape of the tree is the grouping of the merges. *)
Inductive Reduction :=
| Leaf (r : Rect)
| Merge (left right : Reduction).

Fixpoint reduce (t : Reduction) : Rect :=
  match t with
  | Leaf r => r
  | Merge l r => combine_rect (reduce l) (reduce r)
  end.

Fixpoint leaves (t : Reduction) : list Rect :=
  match t with
  | Leaf r => [r]
  | Merge l r => leaves l ++ leaves r
  end.

(** The block processor in the spec's words: a result whose selection is
    empty is dropped, and the results after it are still processed. *)
Fixpoint bounding_boxes_dropping (sets : list CharacterSet) : list BoundingBox :=
  match sets with
  | [] => []
  | cs :: rest =>
      match completeBoundingBox (characters cs) with
      | inl _ => bounding_boxes_dropping rest
      | inr box => mkBoundingBox box (cs_result cs) :: bounding_boxes_dropping rest
      end
  end.

(** An analyzer reporting the same two spans for every text: an empty one
    followed by the first character. *)
Definition empty_then_first (_ _ : string) : list RecognizerResult :=
  [mkResult "PERSON" 0 0; mkResult "PERSON" 0 1].

(** A custom recognizer that reports the first character of a blank text. *)
Definition blank_recognizer (text _ : string) : list RecognizerResult :=
  if Py.isspace text then [mkResult "BLANK" 0 1] else [].

(** An analyzer that finds one person name. *)
Definition name_recognizer (text _ : string) : list RecognizerResult :=
  if String.eqb text "Jane" then [mkResult "PERSON" 0 4] else [].

(** A document of two pages; the name is on the second one. *)
Definition two_page_layouts : list PageLayout :=
  [ [LTTextContainer "Hi" [LTTextLine [LTChar "H" (mkRect 0 0 10 10);
                                       LTChar "i" (mkRect 10 0 20 10)]]];
    [LTTextContainer "Jane" [LTTextLine [LTChar "J" (mkRect 0 0 10 10);
                                         LTChar "a" (mkRect 10 0 20 10);
                                         LTChar "n" (mkRect 20 0 30 10);
                                         LTChar "e" (mkRect 30 0 40 10)]]] ].

(** The same document as opened for writing: no page has annotations. *)
Definition two_page_pdf : list Page :=
  [mkPage "page 1" None; mkPage "page 2" None].

(** A rectangle as the data model wants it: no negative width or height. *)
Definition well_formed (r : Rect) : Prop := x0 r <= x1 r /\ y0 r <= y1 r.

(** What one layout element contributes to each part of the first cell's
    state: the analyzer call made for it, the results returned for it, the
    character sets appended for it and the lines printed for it. *)
Definition container_calls (item : LayoutItem) : list (string * string) :=
  match item with
  | LTTextContainer text _ => [(text, "en"%string)]
  | LTOtherLayout => []
  end.

Definition container_results (analyze : string -> string -> list RecognizerResult)
    (item : LayoutItem) : list RecognizerResult :=
  match item with
  | LTTextContainer text _ => analyze text "en"
  | LTOtherLayout => []
  end.

Definition container_sets (analyze : string -> string -> list RecognizerResult)
    (item : LayoutItem) : list CharacterSet :=
  match item with
  | LTTextContainer text children =>
      map (slice_result (container_characters children)) (analyze text "en")
  | LTOtherLayout => []
  end.

Definition container_output (analyze : string -> string -> list RecognizerResult)
    (item : LayoutItem) : list Printed :=
  match item with
  | LTTextContainer text _ =>
      if Py.isspace text then [] else [PrintText text; PrintResults (analyze text "en")]
  | LTOtherLayout => []
  end.

(** An analyzer that never finds anything. *)
Definition silent_analyzer (_ _ : string) : list RecognizerResult := [].

(** * Properties *)

(** ** Python's [min] and [max] on integers *)

Lemma py_min_spec a b : Py.min a b = Z.min a b.
Proof. unfold Py.min. destruct (Z.ltb_spec b a); lia. Qed.

Lemma py_max_spec a b : Py.max a b = Z.max a b.
Proof. unfold Py.max. destruct (Z.ltb_spec a b); lia. Qed.

(** ** The union rule *)

Lemma combine_rect_eq a b :
  combine_rect a b =
  mkRect (Z.min (x0 a) (x0 b)) (Z.min (y0 a) (y0 b))
         (Z.max (x1 a) (x1 b)) (Z.max (y1 a) (y1 b)).
Proof. unfold combine_rect. by rewrite !py_min_spec, !py_max_spec. Qed.

Lemma combine_rect_comm a b : combine_rect a b = combine_rect b a.
Proof. rewrite !combine_rect_eq. f_equal; lia. Qed.

Lemma combine_rect_assoc a b c :
  combine_rect (combine_rect a b) c = combine_rect a (combine_rect b c).
Proof. rewrite !combine_rect_eq. simpl. f_equal; lia. Qed.

Lemma combine_rect_idemp a : combine_rect a a = a.
Proof. rewrite combine_rect_eq. destruct a; simpl. f_equal; lia. Qed.

Lemma combine_all_cons acc r l :
  combine_all acc (r :: l) = combine_all (combine_rect acc r) l.
Proof. reflexivity. Qed.

Lemma combine_all_app acc l1 l2 :
  combine_all acc (l1 ++ l2) = combine_all (combine_all acc l1) l2.
Proof. unfold combine_all. apply fold_left_app. Qed.

(** Merging into the accumulator before or after the loop is the same. *)
Lemma combine_all_acc a b l :
  combine_all (combine_rect a b) l = combine_rect a (combine_all b l).
Proof.
  revert a b. induction l as [|r l IH]; intros a b; [done|].
  rewrite !combine_all_cons, <- IH. by rewrite combine_rect_assoc.
Qed.

Lemma combine_all_perm acc l l' :
  l ≡ₚ l' -> combine_all acc l = combine_all acc l'.
Proof.
  intros Hp. revert acc.
  induction Hp as [|x l l' _ IH|x y l|l l' l'' _ IH1 _ IH2]; intros acc.
  - done.
  - rewrite !combine_all_cons. apply IH.
  - rewrite !combine_all_cons. f_equal.
    rewrite !combine_rect_assoc. f_equal. apply combine_rect_comm.
  - by rewrite IH1.
Qed.

(** The loop of cell 2 folds the first character twice; that is harmless. *)
Lemma completeBoundingBox_cons g l :
  completeBoundingBox (g :: l) = inr (combine_all g l).
Proof.
  unfold completeBoundingBox. by rewrite combine_all_cons, combine_rect_idemp.
Qed.

Lemma combine_all_head_swap x y l :
  combine_all x (y :: l) = combine_all y (x :: l).
Proof. rewrite !combine_all_cons. f_equal. apply combine_rect_comm. Qed.

Lemma completeBoundingBox_perm l l' :
  l ≡ₚ l' -> completeBoundingBox l = completeBoundingBox l'.
Proof.
  induction 1 as [|x l l' Hp _|x y l|l l' l'' _ IH1 _ IH2].
  - done.
  - rewrite !completeBoundingBox_cons. f_equal. by apply combine_all_perm.
  - rewrite !completeBoundingBox_cons. f_equal. apply combine_all_head_swap.
  - by rewrite IH1.
Qed.

Lemma combine_all_split a l1 b l2 :
  combine_all a (l1 ++ b :: l2) = combine_rect (combine_all a l1) (combine_all b l2).
Proof. rewrite combine_all_app, combine_all_cons. apply combine_all_acc. Qed.

(** Whatever its shape, a reduction computes what the loop of cell 2
    computes on its leaves. *)
Lemma reduce_loop t : completeBoundingBox (leaves t) = inr (reduce t).
Proof.
  assert (exists g rest, leaves t = g :: rest /\ reduce t = combine_all g rest) as H.
  { induction t as [r|l (g1 & r1 & El & Rl) r (g2 & r2 & Er & Rr)]; simpl.
    - by exists r, [].
    - exists g1, (r1 ++ g2 :: r2). rewrite El, Er, Rl, Rr. split; [done|].
      symmetry. apply combine_all_split. }
  destruct H as (g & rest & -> & ->). apply completeBoundingBox_cons.
Qed.

(** C2: the union rule is commutative and associative, so reducing a
    collection of rectangles gives the same rectangle whatever the order and
    the grouping of the merges: any two reductions over the same rectangles
    agree, the loop of cell 2 gives the same box on any permutation of the
    characters, from any starting accumulator, and reducing two parts
    separately and merging the two results equals reducing the whole. *)
Theorem combine_rect_order_and_grouping_irrelevant :
  (forall a b, combine_rect a b = combine_rect b a) /\
  (forall a b c, combine_rect (combine_rect a b) c = combine_rect a (combine_rect b c)) /\
  (forall t t', leaves t ≡ₚ leaves t' -> reduce t = reduce t') /\
  (forall acc l l', l ≡ₚ l' -> combine_all acc l = combine_all acc l') /\
  (forall l l', l ≡ₚ l' -> completeBoundingBox l = completeBoundingBox l') /\
  (forall a l1 b l2,
     combine_all a (l1 ++ b :: l2) = combine_rect (combine_all a l1) (combine_all b l2)).
Proof.
  split; [exact combine_rect_comm|].
  split; [exact combine_rect_assoc|].
  split; [|split; [exact combine_all_perm|split;
    [exact completeBoundingBox_perm|exact combine_all_split]]].
  intros t t' Hp. apply completeBoundingBox_perm in Hp.
  rewrite !reduce_loop in Hp. by injection Hp.
Qed.

(** The reduction clause of C2 on three rectangles, merged in two
    different orders and groupings. *)
Lemma combine_rect_order_and_grouping_irrelevant_witness :
  let a := mkRect 0 0 10 10 in
  let b := mkRect 10 5 15 12 in
  let c := mkRect 3 (-2) 4 1 in
  reduce (Merge (Merge (Leaf a) (Leaf b)) (Leaf c))
  = reduce (Merge (Leaf c) (Merge (Leaf a) (Leaf b))).
Proof.
  intros a b c.
  apply (proj1 (proj2 (proj2 combine_rect_order_and_grouping_irrelevant))
           (Merge (Merge (Leaf a) (Leaf b)) (Leaf c))
           (Merge (Leaf c) (Merge (Leaf a) (Leaf b)))).
  simpl. symmetry. apply (Permutation_cons_append [a; b] c).
Defined.

(** ** Slicing *)

Lemma adjust_index_range n i : 0 <= n -> 0 <= Py.adjust_index n i <= n.
Proof.
  intros Hn. unfold Py.adjust_index.
  destruct (Z.ltb_spec i 0); [destruct (Z.ltb_spec (i + n) 0)|destruct (Z.ltb_spec n i)]; lia.
Qed.

Lemma adjust_index_nonneg n i :
  0 <= i -> Py.adjust_index n i = Z.min i n.
Proof.
  intros Hi. unfold Py.adjust_index.
  destruct (Z.ltb_spec i 0); [lia|]. destruct (Z.ltb_spec n i); lia.
Qed.

(** A span whose bounds coincide selects nothing, whatever the bounds. *)
Lemma slice_same {A} (l : list A) i : Py.slice l i i = [].
Proof. unfold Py.slice. by rewrite Z.sub_diag. Qed.

(** A stop beyond the end of the list is clamped to the end. *)
Lemma slice_stop_beyond {A} (l : list A) i j :
  0 <= i -> Z.of_nat (length l) < j ->
  Py.slice l i j = drop (Z.to_nat i) l.
Proof.
  intros Hi Hj. unfold Py.slice.
  rewrite !adjust_index_nonneg by lia.
  destruct (Z.le_gt_cases i (Z.of_nat (length l))) as [Hle|Hgt].
  - rewrite (Z.min_l i), (Z.min_r j) by lia.
    apply take_ge. rewrite length_drop. lia.
  - rewrite (Z.min_r i), (Z.min_r j) by lia.
    rewrite Z.sub_diag. simpl. rewrite take_0.
    symmetry. apply drop_ge. lia.
Qed.

(** A span of width one inside the list selects the element at its start. *)
Lemma slice_single {A} (l : list A) i g :
  0 <= i -> l !! Z.to_nat i = Some g -> Py.slice l i (i + 1) = [g].
Proof.
  intros Hi Hg. unfold Py.slice.
  pose proof (lookup_lt_Some _ _ _ Hg) as Hlt.
  rewrite !adjust_index_nonneg by lia.
  rewrite !Z.min_l by lia.
  replace (Z.to_nat (i + 1 - i)) with 1%nat by lia.
  rewrite (drop_S _ _ _ Hg). reflexivity.
Qed.

Lemma reconcile_selected glyphs result g rest :
  Py.slice glyphs (start result) (end_ result) = g :: rest ->
  reconcile glyphs result = inr (mkBoundingBox (combine_all g rest) result).
Proof.
  intros Hs. unfold reconcile, slice_result. simpl. rewrite Hs.
  by rewrite completeBoundingBox_cons.
Qed.

Lemma reconcile_nothing_selected glyphs result :
  Py.slice glyphs (start result) (end_ result) = [] ->
  reconcile glyphs result = inl Py.IndexError.
Proof. intros Hs. unfold reconcile, slice_result. simpl. by rewrite Hs. Qed.

(** ** Spans reaching past the last glyph *)

(** C1, as stated, fails: with two glyphs and the span [0, 5) nothing is
    raised; the span is clamped and both glyphs are merged into a box. *)
Lemma reconcile_out_of_range_not_rejected :
  let glyphs := [mkRect 0 0 10 10; mkRect 10 0 20 10] in
  let result := mkResult "PERSON" 0 5 in
  Z.of_nat (length glyphs) < end_ result /\
  characters (slice_result glyphs result) = glyphs /\
  reconcile glyphs result = inr (mkBoundingBox (mkRect 0 0 20 10) result).
Proof. repeat split. Qed.

(** C1, amended: for a span with a non-negative start and an end beyond the
    glyphs, slicing raises nothing and clamps the span to the glyphs from
    [start] on.  If [start] lies inside the glyphs, the outcome is the box of
    those remaining glyphs; if it does not, the selection is empty and the
    bounding-box step raises [IndexError]. *)
Theorem reconcile_end_beyond_glyphs_clamps glyphs result :
  0 <= start result ->
  Z.of_nat (length glyphs) < end_ result ->
  characters (slice_result glyphs result) = drop (Z.to_nat (start result)) glyphs /\
  (start result < Z.of_nat (length glyphs) ->
     exists g rest,
       drop (Z.to_nat (start result)) glyphs = g :: rest /\
       reconcile glyphs result = inr (mkBoundingBox (combine_all g rest) result)) /\
  (Z.of_nat (length glyphs) <= start result ->
     reconcile glyphs result = inl Py.IndexError).
Proof.
  intros Hs He.
  pose proof (slice_stop_beyond glyphs _ _ Hs He) as Hsl.
  split; [exact Hsl|]. split.
  - intros Hlt.
    destruct (drop (Z.to_nat (start result)) glyphs) as [|g rest] eqn:Hd.
    + apply (f_equal length) in Hd. rewrite length_drop in Hd. simpl in Hd. lia.
    + exists g, rest. split; [done|]. apply reconcile_selected. by rewrite Hsl.
  - intros Hge. apply reconcile_nothing_selected.
    rewrite Hsl. apply drop_ge. lia.
Qed.

Lemma reconcile_end_beyond_glyphs_clamps_witness :
  let glyphs := [mkRect 0 0 10 10; mkRect 10 0 20 10; mkRect 20 0 30 10] in
  let result := mkResult "EMAIL_ADDRESS" 1 7 in
  characters (slice_result glyphs result) = drop (Z.to_nat (start result)) glyphs /\
  (start result < Z.of_nat (length glyphs) ->
     exists g rest,
       drop (Z.to_nat (start result)) glyphs = g :: rest /\
       reconcile glyphs result = inr (mkBoundingBox (combine_all g rest) result)) /\
  (Z.of_nat (length glyphs) <= start result ->
     reconcile glyphs result = inl Py.IndexError).
Proof.
  intros glyphs result.
  apply (reconcile_end_beyond_glyphs_clamps glyphs result); simpl; lia.
Defined.

(** ** Scenarios *)

(** C6: the four glyphs of a word on one line over the span [0, 4) give
    (0,0,40,10); a glyph followed by a superscript over [0, 2) gives
    (0,0,15,12). *)
Theorem reconcile_scenarios :
  reconcile [mkRect 0 0 10 10; mkRect 10 0 20 10; mkRect 20 0 30 10; mkRect 30 0 40 10]
            (mkResult "PERSON" 0 4)
  = inr (mkBoundingBox (mkRect 0 0 40 10) (mkResult "PERSON" 0 4)) /\
  reconcile [mkRect 0 0 10 10; mkRect 10 5 15 12] (mkResult "PERSON" 0 2)
  = inr (mkBoundingBox (mkRect 0 0 15 12) (mkResult "PERSON" 0 2)).
Proof. split; reflexivity. Qed.

(** ** Single-glyph spans *)

(** C8: a span [start, start + 1) inside the glyphs yields exactly the
    rectangle of the glyph at [start], unchanged. *)
Theorem reconcile_single_glyph glyphs result :
  0 <= start result < Z.of_nat (length glyphs) ->
  end_ result = start result + 1 ->
  exists g,
    glyphs !! Z.to_nat (start result) = Some g /\
    reconcile glyphs result = inr (mkBoundingBox g result).
Proof.
  intros [Hlo Hhi] He.
  destruct (lookup_lt_is_Some_2 glyphs (Z.to_nat (start result))) as [g Hg]; [lia|].
  exists g. split; [exact Hg|].
  change g with (combine_all g []). apply reconcile_selected.
  rewrite He. by apply slice_single.
Qed.

Lemma reconcile_single_glyph_witness :
  exists g,
    [mkRect 0 0 10 10; mkRect 10 5 15 12] !! Z.to_nat 1 = Some g /\
    reconcile [mkRect 0 0 10 10; mkRect 10 5 15 12] (mkResult "PERSON" 1 2)
    = inr (mkBoundingBox g (mkResult "PERSON" 1 2)).
Proof.
  apply (reconcile_single_glyph [mkRect 0 0 10 10; mkRect 10 5 15 12]
           (mkResult "PERSON" 1 2)); simpl; lia.
Defined.

(** ** Highlight geometry *)

(** C9: the quadrilateral of a highlight lists the corners of its box in
    the order (x0,y1), (x1,y1), (x0,y0), (x1,y0). *)
Theorem highlight_quadpoints_order a b c d result :
  QuadPoints (highlight (mkBoundingBox (mkRect a b c d) result))
  = [a; d; c; d; a; b; c; b].
Proof. reflexivity. Qed.

(** ** The merged box as the least enclosing rectangle *)

Lemma contains_refl r : contains r r.
Proof. unfold contains. lia. Qed.

Lemma contains_trans a b c : contains a b -> contains b c -> contains a c.
Proof. unfold contains. lia. Qed.

Lemma combine_rect_contains_l a b : contains (combine_rect a b) a.
Proof. rewrite combine_rect_eq. unfold contains. simpl. lia. Qed.

Lemma combine_rect_contains_r a b : contains (combine_rect a b) b.
Proof. rewrite combine_rect_eq. unfold contains. simpl. lia. Qed.

Lemma combine_rect_least R a b :
  contains R a -> contains R b -> contains R (combine_rect a b).
Proof. rewrite combine_rect_eq. unfold contains. simpl. lia. Qed.

(** Each coordinate of a merge is a coordinate of one of its arguments. *)
Lemma combine_rect_attained (f : Rect -> Z) a b :
  f = x0 \/ f = y0 \/ f = x1 \/ f = y1 ->
  f (combine_rect a b) = f a \/ f (combine_rect a b) = f b.
Proof.
  rewrite combine_rect_eq.
  intros [-> | [-> | [-> | ->]]]; simpl; lia.
Qed.

Lemma combine_all_contains_acc acc l : contains (combine_all acc l) acc.
Proof.
  revert acc. induction l as [|r l IH]; intros acc; [apply contains_refl|].
  rewrite combine_all_cons.
  eapply contains_trans; [apply IH|apply combine_rect_contains_l].
Qed.

Lemma combine_all_contains_elem acc l g :
  g ∈ l -> contains (combine_all acc l) g.
Proof.
  revert acc. induction l as [|r l IH]; intros acc Hin; [by apply elem_of_nil in Hin|].
  rewrite combine_all_cons.
  apply elem_of_cons in Hin as [->|Hin]; [|by apply IH].
  eapply contains_trans; [apply combine_all_contains_acc|apply combine_rect_contains_r].
Qed.

Lemma combine_all_least R acc l :
  contains R acc -> (forall g, g ∈ l -> contains R g) -> contains R (combine_all acc l).
Proof.
  revert acc. induction l as [|r l IH]; intros acc Hacc Hl; [done|].
  rewrite combine_all_cons. apply IH.
  - apply combine_rect_least; [done|]. apply Hl. by left.
  - intros g Hg. apply Hl. by right.
Qed.

Lemma combine_all_attained (f : Rect -> Z) acc l :
  f = x0 \/ f = y0 \/ f = x1 \/ f = y1 ->
  exists g, g ∈ acc :: l /\ f (combine_all acc l) = f g.
Proof.
  intros Hf. revert acc. induction l as [|r l IH]; intros acc.
  - exists acc. split; [by left|done].
  - rewrite combine_all_cons.
    destruct (IH (combine_rect acc r)) as (g & Hin & Hg).
    apply elem_of_cons in Hin as [->|Hin].
    + destruct (combine_rect_attained f acc r Hf) as [E|E]; rewrite Hg, E.
      * exists acc. split; [by left|done].
      * exists r. split; [right; by left|done].
    + exists g. split; [by do 2 right|done].
Qed.

(** A non-empty selection always yields a box: the bounding-box step is
    total on it. *)
Lemma reconcile_nonempty glyphs result :
  Py.slice glyphs (start result) (end_ result) <> [] ->
  exists g rest,
    Py.slice glyphs (start result) (end_ result) = g :: rest /\
    reconcile glyphs result = inr (mkBoundingBox (combine_all g rest) result).
Proof.
  intros Hne.
  destruct (Py.slice glyphs (start result) (end_ result)) as [|g rest] eqn:Hs; [done|].
  exists g, rest. split; [done|]. by apply reconcile_selected.
Qed.

(** C7: when the span selects at least one glyph, reconciliation returns a
    box, and that box contains the rectangle of every selected glyph. *)
Theorem reconcile_contains_selected glyphs result :
  Py.slice glyphs (start result) (end_ result) <> [] ->
  exists box,
    reconcile glyphs result = inr box /\
    forall g, g ∈ Py.slice glyphs (start result) (end_ result) ->
      x0 (boundingBox box) <= x0 g /\ y0 (boundingBox box) <= y0 g /\
      x1 (boundingBox box) >= x1 g /\ y1 (boundingBox box) >= y1 g.
Proof.
  intros Hne. destruct (reconcile_nonempty _ _ Hne) as (g0 & rest & Hs & Hr).
  eexists. split; [exact Hr|]. simpl. intros g Hg. rewrite Hs in Hg.
  assert (contains (combine_all g0 rest) g) as Hc.
  { apply elem_of_cons in Hg as [->|Hg];
      [apply combine_all_contains_acc|by apply combine_all_contains_elem]. }
  unfold contains in Hc. lia.
Qed.

Lemma reconcile_contains_selected_witness :
  let glyphs := [mkRect 0 0 10 10; mkRect 10 5 15 12; mkRect 15 0 25 10] in
  let result := mkResult "PERSON" 0 2 in
  exists box,
    reconcile glyphs result = inr box /\
    forall g, g ∈ Py.slice glyphs (start result) (end_ result) ->
      x0 (boundingBox box) <= x0 g /\ y0 (boundingBox box) <= y0 g /\
      x1 (boundingBox box) >= x1 g /\ y1 (boundingBox box) >= y1 g.
Proof.
  intros glyphs result.
  apply (reconcile_contains_selected glyphs result). vm_compute. discriminate.
Defined.

(** C10: when the span selects at least one glyph, the returned box is the
    least rectangle enclosing the selection: it contains every selected
    glyph, each of its coordinates is the coordinate of some selected glyph
    (so it is the minimum of the x0 and y0 and the maximum of the x1 and y1),
    and every rectangle that contains all the selected glyphs contains it. *)
Theorem reconcile_least_enclosing glyphs result :
  Py.slice glyphs (start result) (end_ result) <> [] ->
  exists box,
    let selected := Py.slice glyphs (start result) (end_ result) in
    reconcile glyphs result = inr box /\
    (forall g, g ∈ selected -> contains (boundingBox box) g) /\
    (exists g, g ∈ selected /\ x0 (boundingBox box) = x0 g) /\
    (exists g, g ∈ selected /\ y0 (boundingBox box) = y0 g) /\
    (exists g, g ∈ selected /\ x1 (boundingBox box) = x1 g) /\
    (exists g, g ∈ selected /\ y1 (boundingBox box) = y1 g) /\
    (forall R, (forall g, g ∈ selected -> contains R g) -> contains R (boundingBox box)).
Proof.
  intros Hne. destruct (reconcile_nonempty _ _ Hne) as (g0 & rest & Hs & Hr).
  eexists. simpl. rewrite Hs. split; [exact Hr|]. simpl.
  split; [|split; [|split; [|split; [|split]]]].
  - intros g Hg. apply elem_of_cons in Hg as [->|Hg];
      [apply combine_all_contains_acc|by apply combine_all_contains_elem].
  - apply (combine_all_attained x0); auto.
  - apply (combine_all_attained y0); auto.
  - apply (combine_all_attained x1); auto.
  - apply (combine_all_attained y1); auto.
  - intros R HR. apply combine_all_least.
    + apply HR. by left.
    + intros g Hg. apply HR. by right.
Qed.

Lemma reconcile_least_enclosing_witness :
  let glyphs := [mkRect 0 0 10 10; mkRect 10 5 15 12; mkRect 15 (-3) 25 10] in
  let result := mkResult "PERSON" 1 3 in
  exists box,
    let selected := Py.slice glyphs (start result) (end_ result) in
    reconcile glyphs result = inr box /\
    (forall g, g ∈ selected -> contains (boundingBox box) g) /\
    (exists g, g ∈ selected /\ x0 (boundingBox box) = x0 g) /\
    (exists g, g ∈ selected /\ y0 (boundingBox box) = y0 g) /\
    (exists g, g ∈ selected /\ x1 (boundingBox box) = x1 g) /\
    (exists g, g ∈ selected /\ y1 (boundingBox box) = y1 g) /\
    (forall R, (forall g, g ∈ selected -> contains R g) -> contains R (boundingBox box)).
Proof.
  intros glyphs result.
  apply (reconcile_least_enclosing glyphs result). vm_compute. discriminate.
Defined.

(** ** Empty selections *)

Lemma bounding_boxes_loop_app l1 l2 acc :
  bounding_boxes_loop (l1 ++ l2) acc =
  match bounding_boxes_loop l1 acc with
  | (acc', None) => bounding_boxes_loop l2 acc'
  | stopped => stopped
  end.
Proof.
  revert acc. induction l1 as [|cs l1 IH]; intros acc; simpl; [done|].
  destruct (completeBoundingBox (characters cs)); [done|apply IH].
Qed.

(** C3, as stated, fails: an empty span followed by a good one is not
    dropped; the loop of cell 2 stops on it with no box at all, where
    dropping would have kept the box of the second span, and the run ends
    with the exception. *)
Lemma empty_span_not_dropped :
  let glyphs := [mkRect 0 0 10 10] in
  let sets := map (slice_result glyphs) (empty_then_first "J" "en") in
  bounding_boxes_dropping sets
    = [mkBoundingBox (mkRect 0 0 10 10) (mkResult "PERSON" 0 1)] /\
  cell2 sets = ([], Some Py.IndexError) /\
  cell2 sets <> (bounding_boxes_dropping sets, None) /\
  run_notebook empty_then_first
    [[LTTextContainer "J" [LTTextLine [LTChar "J" (mkRect 0 0 10 10)]]]]
    [mkPage "page 1" None] = inl Py.IndexError.
Proof. repeat split. discriminate. Qed.

(** C3, amended: a result whose selection is empty (in particular one with
    [start = end]) makes the bounding-box step raise [IndexError] and yields
    no box.  The exception is not caught: the loop of cell 2 stops at the
    first such character set, keeping only the boxes appended before it,
    none of the later sets is processed, and the run ends with the
    exception instead of writing annotations. *)
Theorem empty_span_raises_and_stops :
  (forall glyphs result,
     start result = end_ result -> reconcile glyphs result = inl Py.IndexError) /\
  (forall glyphs result,
     characters (slice_result glyphs result) = [] ->
     reconcile glyphs result = inl Py.IndexError) /\
  (forall before cs after boxes,
     cell2 before = (boxes, None) -> characters cs = [] ->
     cell2 (before ++ cs :: after) = (boxes, Some Py.IndexError)) /\
  (forall analyze layouts pdf before cs after boxes,
     analyzed_character_sets (cell1 analyze layouts) = before ++ cs :: after ->
     cell2 before = (boxes, None) -> characters cs = [] ->
     run_notebook analyze layouts pdf = inl Py.IndexError).
Proof.
  assert (forall before cs after boxes,
     cell2 before = (boxes, None) -> characters cs = [] ->
     cell2 (before ++ cs :: after) = (boxes, Some Py.IndexError)) as Hstop.
  { intros before cs after boxes Hb Hcs. unfold cell2 in *.
    rewrite bounding_boxes_loop_app, Hb. simpl. by rewrite Hcs. }
  split; [|split; [|split; [exact Hstop|]]].
  - intros glyphs result He. apply reconcile_nothing_selected.
    rewrite He. apply slice_same.
  - intros glyphs result Hs. by apply reconcile_nothing_selected.
  - intros analyze layouts pdf before cs after boxes Hsets Hb Hcs.
    unfold run_notebook. rewrite Hsets. by rewrite (Hstop _ _ after _ Hb Hcs).
Qed.

Lemma empty_span_raises_and_stops_witness :
  let one := mkCharacterSet [mkRect 0 0 10 10] (mkResult "PERSON" 0 1) in
  let none := mkCharacterSet [] (mkResult "PERSON" 1 1) in
  cell2 [one; none; one]
  = ([mkBoundingBox (mkRect 0 0 10 10) (mkResult "PERSON" 0 1)], Some Py.IndexError).
Proof.
  intros one none.
  apply (proj1 (proj2 (proj2 empty_span_raises_and_stops)) [one] none [one]);
    reflexivity.
Defined.

(** ** Whitespace-only blocks *)

(** C4, as stated, fails: a block whose text is one space is passed to the
    analyzer, the result returned for it is sliced like any other, and the
    run ends with a highlight for it. *)
Lemma whitespace_block_is_analyzed :
  let block := LTTextContainer " " [LTTextLine [LTChar " " (mkRect 0 0 5 10)]] in
  let st := cell1 blank_recognizer [[block]] in
  Py.isspace " " = true /\
  analyzer_calls st = [(" ", "en")]%string /\
  analyzed_character_sets st
    = [mkCharacterSet [mkRect 0 0 5 10] (mkResult "BLANK" 0 1)] /\
  run_notebook blank_recognizer [[block]] [mkPage "page 1" None]
    = inr [mkPage "page 1"
             (Some [highlight (mkBoundingBox (mkRect 0 0 5 10) (mkResult "BLANK" 0 1))])].
Proof. repeat split. Qed.

(** C4, amended: for a block whose text is entirely whitespace the analyzer
    is still called once, on that text, and its results are not ignored: one
    character set is recorded per result.  Only the console output is
    skipped.  The block adds no character set, hence no annotation, when the
    analyzer returns no result for it. *)
Theorem whitespace_block_still_analyzed analyze st text children :
  Py.isspace text = true ->
  let st' := process_container analyze st (LTTextContainer text children) in
  analyzer_calls st' = analyzer_calls st ++ [(text, "en"%string)] /\
  analyzed_character_sets st'
    = analyzed_character_sets st
      ++ map (slice_result (container_characters children)) (analyze text "en") /\
  console st' = console st /\
  (analyze text "en" = [] -> analyzed_character_sets st' = analyzed_character_sets st).
Proof.
  intros Hsp. simpl. rewrite Hsp. simpl.
  repeat split. intros ->. simpl. apply app_nil_r.
Qed.

Lemma whitespace_block_still_analyzed_witness :
  let st := mkCell1 [] [] [] in
  let children := [LTTextLine [LTChar " " (mkRect 0 0 5 10)]] in
  let st' := process_container blank_recognizer st (LTTextContainer " " children) in
  analyzer_calls st' = analyzer_calls st ++ [(" ", "en")]%string /\
  analyzed_character_sets st'
    = analyzed_character_sets st
      ++ map (slice_result (container_characters children)) (blank_recognizer " " "en") /\
  console st' = console st /\
  (blank_recognizer " " "en" = [] -> analyzed_character_sets st' = analyzed_character_sets st).
Proof.
  intros st children.
  apply (whitespace_block_still_analyzed blank_recognizer st " " children).
  reflexivity.
Defined.

(** ** Where the annotations are attached *)

(** Cell 3 touches the first page only: its annotation list is replaced by
    all the highlights, every other page is left as it was. *)
Lemma cell3_first_page_only pdf boxes pdf' :
  cell3 pdf boxes = inr pdf' ->
  (exists p, pdf !! 0%nat = Some p /\
             pdf' !! 0%nat = Some (mkPage (contents p) (Some (make_annotations boxes)))) /\
  (forall i, i <> 0%nat -> pdf' !! i = pdf !! i).
Proof.
  destruct pdf as [|p pdf]; simpl; [discriminate|].
  intros [= <-]. split; [by exists p|].
  intros [|i] Hi; [done|reflexivity].
Qed.

(** C5 at the failing input: the only detection comes from the glyphs of
    the second page, yet its highlight is attached to the first page, and
    the second page gets no annotation list. *)
Theorem annotations_attached_to_first_page :
  analyzed_character_sets (cell1 name_recognizer (take 1 two_page_layouts)) = [] /\
  run_notebook name_recognizer two_page_layouts two_page_pdf
  = inr [mkPage "page 1"
           (Some [highlight (mkBoundingBox (mkRect 0 0 40 10) (mkResult "PERSON" 0 4))]);
         mkPage "page 2" None].
Proof. split; reflexivity. Qed.

(** * Further properties of the notebook's code *)

(** ** The slice of line 97 *)

Lemma slice_length {A} (l : list A) i j :
  length (Py.slice l i j)
  = Z.to_nat (Py.adjust_index (Z.of_nat (length l)) j
              - Py.adjust_index (Z.of_nat (length l)) i).
Proof.
  unfold Py.slice. rewrite length_take, length_drop.
  pose proof (adjust_index_range (Z.of_nat (length l)) i ltac:(lia)).
  pose proof (adjust_index_range (Z.of_nat (length l)) j ltac:(lia)).
  lia.
Qed.

Lemma slice_lookup {A} (l : list A) i j k :
  (k < length (Py.slice l i j))%nat ->
  Py.slice l i j !! k
  = l !! (Z.to_nat (Py.adjust_index (Z.of_nat (length l)) i) + k)%nat.
Proof.
  rewrite slice_length. intros Hk. unfold Py.slice.
  rewrite lookup_take_lt by lia. apply lookup_drop.
Qed.

Lemma slice_in_range {A} (l : list A) i j :
  0 <= i <= j -> j <= Z.of_nat (length l) ->
  length (Py.slice l i j) = Z.to_nat (j - i) /\
  forall k, (k < Z.to_nat (j - i))%nat ->
    Py.slice l i j !! k = l !! (Z.to_nat i + k)%nat.
Proof.
  intros Hij Hj.
  assert (length (Py.slice l i j) = Z.to_nat (j - i)) as Hlen.
  { rewrite slice_length, !adjust_index_nonneg by lia. lia. }
  split; [exact Hlen|].
  intros k Hk. rewrite slice_lookup by lia.
  rewrite adjust_index_nonneg by lia. do 2 f_equal. lia.
Qed.

(** For a span inside the characters, [0 <= start <= end <= len], the
    slice holds exactly [end - start] characters, and its k-th character is
    the character at position [start + k]. *)
Theorem slice_in_range_positions chars result :
  0 <= start result <= end_ result ->
  end_ result <= Z.of_nat (length chars) ->
  length (characters (slice_result chars result))
    = Z.to_nat (end_ result - start result) /\
  forall k, (k < Z.to_nat (end_ result - start result))%nat ->
    characters (slice_result chars result) !! k
    = chars !! (Z.to_nat (start result) + k)%nat.
Proof. intros Hse He. by apply slice_in_range. Qed.

Lemma slice_in_range_positions_witness :
  let chars := [mkRect 0 0 10 10; mkRect 10 0 20 10; mkRect 20 0 30 10] in
  let result := mkResult "PERSON" 1 3 in
  length (characters (slice_result chars result))
    = Z.to_nat (end_ result - start result) /\
  forall k, (k < Z.to_nat (end_ result - start result))%nat ->
    characters (slice_result chars result) !! k
    = chars !! (Z.to_nat (start result) + k)%nat.
Proof.
  intros chars result.
  apply (slice_in_range_positions chars result); simpl; lia.
Defined.

Lemma slice_decompose {A} (l : list A) i j :
  exists before after, l = before ++ Py.slice l i j ++ after.
Proof.
  unfold Py.slice.
  set (lo := Z.to_nat (Py.adjust_index (Z.of_nat (length l)) i)).
  set (k := Z.to_nat _).
  exists (take lo l), (drop k (drop lo l)).
  by rewrite (take_drop k), (take_drop lo).
Qed.

(** Whatever the bounds of the result, in range or not, the selected
    characters are a contiguous run of the container's characters: slicing
    never raises, never reorders and never invents a character. *)
Theorem slice_result_contiguous chars result :
  exists before after,
    chars = before ++ characters (slice_result chars result) ++ after.
Proof. apply slice_decompose. Qed.

(** For non-negative bounds, reconciliation yields a box exactly when the
    span is not empty or reversed and starts inside the characters; in every
    other case it raises [IndexError]. *)
Theorem reconcile_succeeds_iff glyphs result :
  0 <= start result -> 0 <= end_ result ->
  ((exists box, reconcile glyphs result = inr box) <->
   start result < end_ result /\ start result < Z.of_nat (length glyphs)) /\
  (reconcile glyphs result = inl Py.IndexError <->
   ~ (start result < end_ result /\ start result < Z.of_nat (length glyphs))).
Proof.
  intros Hs He.
  pose proof (slice_length glyphs (start result) (end_ result)) as Hlen.
  rewrite !adjust_index_nonneg in Hlen by lia.
  destruct (Py.slice glyphs (start result) (end_ result)) as [|g rest] eqn:Hsl;
    simpl in Hlen.
  - rewrite (reconcile_nothing_selected _ _ Hsl).
    split; split.
    + intros [box Hbox]. discriminate.
    + lia.
    + lia.
    + done.
  - rewrite (reconcile_selected _ _ _ _ Hsl).
    split; split.
    + lia.
    + intros _. by eexists.
    + discriminate.
    + lia.
Qed.

Lemma reconcile_succeeds_iff_witness :
  let glyphs := [mkRect 0 0 10 10; mkRect 10 0 20 10] in
  let result := mkResult "PERSON" 2 1 in
  ((exists box, reconcile glyphs result = inr box) <->
   start result < end_ result /\ start result < Z.of_nat (length glyphs)) /\
  (reconcile glyphs result = inl Py.IndexError <->
   ~ (start result < end_ result /\ start result < Z.of_nat (length glyphs))).
Proof.
  intros glyphs result.
  apply (reconcile_succeeds_iff glyphs result); simpl; lia.
Defined.

(** ** The loops of cell 1 *)

Lemma process_container_appends analyze st item :
  process_container analyze st item
  = mkCell1 (analyzed_character_sets st ++ container_sets analyze item)
            (console st ++ container_output analyze item)
            (analyzer_calls st ++ container_calls item).
Proof.
  destruct st as [sets out calls], item as [text children|]; simpl.
  - by destruct (Py.isspace text); simpl; rewrite ?app_nil_r.
  - by rewrite !app_nil_r.
Qed.

Lemma process_page_appends analyze items st :
  process_page analyze st items
  = mkCell1 (analyzed_character_sets st ++ flat_map (container_sets analyze) items)
            (console st ++ flat_map (container_output analyze) items)
            (analyzer_calls st ++ flat_map container_calls items).
Proof.
  unfold process_page. revert st.
  induction items as [|item items IH]; intros st; simpl.
  - destruct st. simpl. by rewrite !app_nil_r.
  - rewrite IH, process_container_appends. simpl. by rewrite <- !app_assoc.
Qed.

Lemma fold_process_page_appends analyze pages st :
  fold_left (process_page analyze) pages st
  = mkCell1
      (analyzed_character_sets st ++ flat_map (container_sets analyze) (concat pages))
      (console st ++ flat_map (container_output analyze) (concat pages))
      (analyzer_calls st ++ flat_map container_calls (concat pages)).
Proof.
  revert st. induction pages as [|page pages IH]; intros st; simpl.
  - destruct st. simpl. by rewrite !app_nil_r.
  - rewrite IH, process_page_appends. simpl.
    by rewrite !flat_map_app, <- !app_assoc.
Qed.

Lemma cell1_appends analyze pages :
  cell1 analyze pages
  = mkCell1 (flat_map (container_sets analyze) (concat pages))
            (flat_map (container_output analyze) (concat pages))
            (flat_map container_calls (concat pages)).
Proof. unfold cell1. by rewrite fold_process_page_appends. Qed.

(** The analyzer is called exactly once per text container, in document
    order, on the container's text and with the language "en"; elements
    that are not text containers cause no call. *)
Theorem cell1_one_call_per_container analyze pages :
  analyzer_calls (cell1 analyze pages) = flat_map container_calls (concat pages).
Proof. by rewrite cell1_appends. Qed.

(** Cell 1 keeps no trace of the page an element came from: any two
    documents whose pages, laid end to end, give the same sequence of
    elements leave the same state, and the run ends the same way. *)
Theorem cell1_forgets_page_boundaries analyze pages pages' pdf :
  concat pages = concat pages' ->
  cell1 analyze pages = cell1 analyze pages' /\
  run_notebook analyze pages pdf = run_notebook analyze pages' pdf.
Proof.
  intros Hc.
  assert (cell1 analyze pages = cell1 analyze pages') as E
    by (by rewrite !cell1_appends, Hc).
  split; [exact E|]. unfold run_notebook. by rewrite E.
Qed.

Lemma cell1_forgets_page_boundaries_witness :
  cell1 name_recognizer two_page_layouts
    = cell1 name_recognizer [concat two_page_layouts] /\
  run_notebook name_recognizer two_page_layouts two_page_pdf
    = run_notebook name_recognizer [concat two_page_layouts] two_page_pdf.
Proof.
  apply (cell1_forgets_page_boundaries name_recognizer two_page_layouts
           [concat two_page_layouts] two_page_pdf).
  reflexivity.
Defined.

Lemma container_sets_results analyze item :
  map cs_result (container_sets analyze item) = container_results analyze item.
Proof.
  destruct item as [text children|]; simpl; [|done].
  rewrite map_map. simpl. apply map_id.
Qed.

Lemma cell1_sets_results analyze pages :
  map cs_result (analyzed_character_sets (cell1 analyze pages))
  = flat_map (container_results analyze) (concat pages).
Proof.
  rewrite cell1_appends. simpl.
  induction (concat pages) as [|item items IH]; simpl; [done|].
  by rewrite map_app, IH, container_sets_results.
Qed.

(** Cell 1 records exactly one character set per analyzer result, in the
    order the results were returned, container after container, each set
    carrying its result unchanged: no result is skipped, merged or reordered. *)
Theorem cell1_one_set_per_result analyze pages :
  map cs_result (analyzed_character_sets (cell1 analyze pages))
  = flat_map (container_results analyze) (concat pages).
Proof. apply cell1_sets_results. Qed.

(** A text is printed by cell 1 exactly when it is the text of some text
    container and is not whitespace-only; in particular the empty text of an
    empty container is printed. *)
Theorem cell1_prints_non_blank_texts analyze pages text :
  PrintText text ∈ console (cell1 analyze pages) <->
  Py.isspace text = false /\
  exists children, LTTextContainer text children ∈ concat pages.
Proof.
  rewrite cell1_appends. simpl.
  rewrite list_elem_of_In, in_flat_map. split.
  - intros (item & Hin & Hout). destruct item as [t children|]; simpl in Hout; [|done].
    destruct (Py.isspace t) eqn:Hsp; [done|].
    destruct Hout as [[= ->]|[|[]]]; [|done].
    split; [done|]. exists children. by apply list_elem_of_In.
  - intros (Hsp & children & Hin).
    exists (LTTextContainer text children). split; [by apply list_elem_of_In|].
    simpl. rewrite Hsp. by left.
Qed.

(** ** The loop of cell 2 *)

Lemma bounding_boxes_loop_all_selected sets acc :
  Forall (fun cs => characters cs <> []) sets ->
  bounding_boxes_loop sets acc = (acc ++ bounding_boxes_dropping sets, None).
Proof.
  intros Hall. revert acc.
  induction Hall as [|cs sets Hcs _ IH]; intros acc; simpl.
  - by rewrite app_nil_r.
  - destruct (characters cs) as [|g rest]; [done|].
    rewrite completeBoundingBox_cons, IH. by rewrite <- app_assoc.
Qed.

Lemma bounding_boxes_loop_some_empty sets acc :
  Exists (fun cs => characters cs = []) sets ->
  snd (bounding_boxes_loop sets acc) = Some Py.IndexError.
Proof.
  intros Hex. revert acc.
  induction sets as [|cs sets IH]; intros acc; [by apply Exists_nil in Hex|].
  simpl. destruct (characters cs) as [|g rest] eqn:Hcs; [done|].
  rewrite completeBoundingBox_cons. apply IH.
  apply Exists_cons in Hex as [Hex|Hex]; [congruence|done].
Qed.

Lemma all_selected_or_some_empty (sets : list CharacterSet) :
  Forall (fun cs => characters cs <> []) sets \/
  Exists (fun cs => characters cs = []) sets.
Proof.
  induction sets as [|cs sets [IH|IH]].
  - left. constructor.
  - destruct (characters cs) eqn:Hcs.
    + right. by left.
    + left. constructor; [congruence|done].
  - right. by right.
Qed.

Lemma bounding_boxes_dropping_results sets :
  Forall (fun cs => characters cs <> []) sets ->
  map bb_result (bounding_boxes_dropping sets) = map cs_result sets.
Proof.
  induction 1 as [|cs sets Hcs _ IH]; simpl; [done|].
  destruct (characters cs) as [|g rest]; [done|].
  rewrite completeBoundingBox_cons. simpl. by rewrite IH.
Qed.

(** Cell 2 runs to its end exactly when every character set holds at least
    one character; otherwise it stops with [IndexError]. *)
Theorem cell2_completes_iff_all_selected sets :
  (snd (cell2 sets) = None <-> Forall (fun cs => characters cs <> []) sets) /\
  (snd (cell2 sets) = Some Py.IndexError <->
   Exists (fun cs => characters cs = []) sets).
Proof.
  unfold cell2.
  destruct (all_selected_or_some_empty sets) as [Hall|Hex].
  - rewrite (bounding_boxes_loop_all_selected _ _ Hall). simpl.
    split; split; try done.
    intros Hex. apply Exists_exists in Hex as (cs & Hin & Hcs).
    rewrite Forall_forall in Hall. by destruct (Hall cs Hin).
  - rewrite (bounding_boxes_loop_some_empty _ _ Hex).
    split; split; try done.
    intros Hall. apply Exists_exists in Hex as (cs & Hin & Hcs).
    rewrite Forall_forall in Hall. by destruct (Hall cs Hin).
Qed.

(** When every character set holds at least one character, cell 2 yields
    one bounding box per set, in order, each carrying the result of its
    set, and each box is the merge of the set's characters. *)
Theorem cell2_one_box_per_set sets :
  Forall (fun cs => characters cs <> []) sets ->
  exists boxes,
    cell2 sets = (boxes, None) /\
    map bb_result boxes = map cs_result sets /\
    map (fun b => inr (boundingBox b)) boxes
      = map (fun cs => completeBoundingBox (characters cs)) sets.
Proof.
  intros Hall. exists (bounding_boxes_dropping sets).
  split; [apply (bounding_boxes_loop_all_selected sets [] Hall)|].
  split; [by apply bounding_boxes_dropping_results|].
  induction Hall as [|cs sets Hcs _ IH]; simpl; [done|].
  destruct (characters cs) as [|g rest]; [done|].
  rewrite completeBoundingBox_cons. simpl. by rewrite IH.
Qed.

Lemma cell2_one_box_per_set_witness :
  let sets := [mkCharacterSet [mkRect 0 0 10 10; mkRect 10 5 15 12] (mkResult "PERSON" 0 2);
               mkCharacterSet [mkRect 30 0 40 10] (mkResult "EMAIL_ADDRESS" 3 4)] in
  exists boxes,
    cell2 sets = (boxes, None) /\
    map bb_result boxes = map cs_result sets /\
    map (fun b => inr (boundingBox b)) boxes
      = map (fun cs => completeBoundingBox (characters cs)) sets.
Proof.
  intros sets. apply (cell2_one_box_per_set sets).
  repeat constructor; simpl; discriminate.
Defined.

(** Whether or not it stops early, cell 2 never produces a box that
    skipping the empty sets would not have produced: its boxes are always an
    initial segment of the boxes of the non-empty sets. *)
Theorem cell2_boxes_prefix sets :
  fst (cell2 sets) `prefix_of` bounding_boxes_dropping sets.
Proof.
  unfold cell2.
  assert (forall acc, exists k,
            fst (bounding_boxes_loop sets acc) = acc ++ k /\
            k `prefix_of` bounding_boxes_dropping sets) as H.
  { induction sets as [|cs sets IH]; intros acc; simpl.
    - exists []. by rewrite app_nil_r.
    - destruct (completeBoundingBox (characters cs)) as [e|box]; simpl.
      + exists []. rewrite app_nil_r. split; [done|apply prefix_nil].
      + destruct (IH (acc ++ [mkBoundingBox box (cs_result cs)])) as (k & -> & Hk).
        exists (mkBoundingBox box (cs_result cs) :: k).
        rewrite <- app_assoc. split; [done|by apply prefix_cons]. }
  destruct (H []) as (k & -> & Hk). done.
Qed.

(** ** Cell 3 and the whole run *)





(** When the analyzer finds nothing in any text of the document, the run
    still succeeds and still writes to the first page: its annotation list
    becomes the empty list, so annotations it already had are lost; the other
    pages are returned unchanged. *)
Theorem run_notebook_no_detection analyze layouts p rest :
  (forall item, item ∈ concat layouts -> container_results analyze item = []) ->
  run_notebook analyze layouts (p :: rest)
  = inr (mkPage (contents p) (Some []) :: rest).
Proof.
  intros Hnone.
  assert (analyzed_character_sets (cell1 analyze layouts) = []) as Hsets.
  { rewrite cell1_appends. simpl.
    induction (concat layouts) as [|item items IH]; simpl; [done|].
    rewrite IH by (intros i Hi; apply Hnone; by right).
    pose proof (Hnone item ltac:(by left)) as Hitem.
    destruct item as [text children|]; simpl in *; [|done].
    by rewrite Hitem. }
  unfold run_notebook. by rewrite Hsets.
Qed.

Lemma run_notebook_no_detection_witness :
  run_notebook silent_analyzer two_page_layouts
    (mkPage "page 1" (Some [highlight (mkBoundingBox (mkRect 0 0 1 1)
                                         (mkResult "OLD" 0 1))])
     :: [mkPage "page 2" None])
  = inr (mkPage "page 1" (Some []) :: [mkPage "page 2" None]).
Proof.
  apply (run_notebook_no_detection silent_analyzer two_page_layouts
           (mkPage "page 1" (Some [highlight (mkBoundingBox (mkRect 0 0 1 1)
                                                (mkResult "OLD" 0 1))]))
           [mkPage "page 2" None]).
  intros [text children|] _; reflexivity.
Defined.



(** ** Geometry of the merged box *)

(** Merging leaves a rectangle unchanged exactly when it already encloses
    the other one. *)
Theorem combine_rect_absorbs_iff_contains a b :
  combine_rect a b = a <-> contains a b.
Proof.
  rewrite combine_rect_eq. unfold contains. destruct a as [ax0 ay0 ax1 ay1]. simpl.
  split.
  - intros [= H0 H1 H2 H3]. lia.
  - intros (H0 & H1 & H2 & H3). f_equal; lia.
Qed.

Lemma slice_elem_of {A} (l : list A) i j x : x ∈ Py.slice l i j -> x ∈ l.
Proof.
  destruct (slice_decompose l i j) as (before & after & E).
  intros Hx. rewrite E. apply elem_of_app. right. apply elem_of_app. by left.
Qed.

(** If the characters are well-formed rectangles ([x0 <= x1], [y0 <= y1]),
    so is every box reconciliation returns. *)
Theorem reconcile_box_well_formed glyphs result box :
  (forall g, g ∈ glyphs -> well_formed g) ->
  reconcile glyphs result = inr box ->
  well_formed (boundingBox box).
Proof.
  intros Hwf Hr.
  destruct (Py.slice glyphs (start result) (end_ result)) as [|g rest] eqn:Hsl.
  - rewrite (reconcile_nothing_selected _ _ Hsl) in Hr. discriminate.
  - rewrite (reconcile_selected _ _ _ _ Hsl) in Hr. injection Hr as <-. simpl.
    assert (well_formed g) as [Hx Hy].
    { apply Hwf. apply (slice_elem_of glyphs (start result) (end_ result)).
      rewrite Hsl. by left. }
    pose proof (combine_all_contains_acc g rest) as Hc.
    unfold contains in Hc. unfold well_formed. lia.
Qed.

Lemma reconcile_box_well_formed_witness :
  well_formed
    (boundingBox (mkBoundingBox (mkRect 0 0 15 12) (mkResult "PERSON" 0 2))).
Proof.
  apply (reconcile_box_well_formed [mkRect 0 0 10 10; mkRect 10 5 15 12]
           (mkResult "PERSON" 0 2)).
  - intros g Hg. apply elem_of_cons in Hg as [-> | Hg]; [unfold well_formed; simpl; lia|].
    apply elem_of_cons in Hg as [-> | Hg]; [unfold well_formed; simpl; lia|].
    by apply elem_of_nil in Hg.
  - reflexivity.
Defined.

(** Widening a span inside the characters never shrinks the box: the box
    of the wider span encloses the box of the narrower one. *)
Theorem reconcile_monotone_in_span glyphs narrow wide :
  0 <= start wide <= start narrow ->
  start narrow < end_ narrow ->
  end_ narrow <= end_ wide <= Z.of_nat (length glyphs) ->
  exists box box',
    reconcile glyphs narrow = inr box /\
    reconcile glyphs wide = inr box' /\
    contains (boundingBox box') (boundingBox box).
Proof.
  intros Hs Hne He.
  destruct (slice_in_range glyphs (start narrow) (end_ narrow)) as [Hln Hkn]; [lia|lia|].
  destruct (slice_in_range glyphs (start wide) (end_ wide)) as [Hlw Hkw]; [lia|lia|].
  destruct (reconcile_nonempty glyphs narrow) as (g & rest & Hsn & Hrn).
  { intros E. rewrite E in Hln. simpl in Hln. lia. }
  destruct (reconcile_nonempty glyphs wide) as (g' & rest' & Hsw & Hrw).
  { intros E. rewrite E in Hlw. simpl in Hlw. lia. }
  eexists. eexists. split; [exact Hrn|]. split; [exact Hrw|]. simpl.
  assert (forall x, x ∈ g :: rest -> contains (combine_all g' rest') x) as Hin.
  { intros x Hx. rewrite <- Hsn in Hx.
    apply list_elem_of_lookup in Hx as [k Hk].
    pose proof (lookup_lt_Some _ _ _ Hk) as Hlt. rewrite Hln in Hlt.
    rewrite Hkn in Hk by lia.
    assert (x ∈ g' :: rest') as Hx'.
    { rewrite <- Hsw.
      apply (list_elem_of_lookup_2 _
               (Z.to_nat (start narrow) - Z.to_nat (start wide) + k)%nat).
      rewrite Hkw by lia. rewrite <- Hk. f_equal. lia. }
    apply elem_of_cons in Hx' as [-> | Hx'];
      [apply combine_all_contains_acc|by apply combine_all_contains_elem]. }
  apply combine_all_least.
  - apply Hin. by left.
  - intros x Hx. apply Hin. by right.
Qed.

Lemma reconcile_monotone_in_span_witness :
  let glyphs := [mkRect 0 0 10 10; mkRect 10 5 15 12; mkRect 15 (-3) 25 10] in
  exists box box',
    reconcile glyphs (mkResult "PERSON" 1 2) = inr box /\
    reconcile glyphs (mkResult "PERSON" 0 3) = inr box' /\
    contains (boundingBox box') (boundingBox box).
Proof.
  intros glyphs.
  apply (reconcile_monotone_in_span glyphs (mkResult "PERSON" 1 2)
           (mkResult "PERSON" 0 3)); simpl; lia.
Defined.

(** ** Collecting the characters of a container *)

(** Only [LTChar] items inside text lines contribute characters: removing
    an [LTAnno] from a line, or a child that is not a text line from the
    container, leaves the collected characters unchanged, and the characters
    of the lines are kept in order. *)
Theorem container_characters_only_chars :
  (forall before after items items' text,
     container_characters (before ++ LTTextLine (items ++ LTAnno text :: items') :: after)
     = container_characters (before ++ LTTextLine (items ++ items') :: after)) /\
  (forall before after,
     container_characters (before ++ LTOtherItem :: after)
     = container_characters (before ++ after)) /\
  (forall before after items text box,
     container_characters (before ++ LTTextLine (LTChar text box :: items) :: after)
     = container_characters before ++ box :: container_characters (LTTextLine items :: after)).
Proof.
  unfold container_characters, line_characters.
  split; [|split]; intros; rewrite !flat_map_app; simpl;
    rewrite ?flat_map_app; reflexivity.
Qed.

(** ** Cells 1 and 2 together, one container at a time *)



